(** * Embedding cache and hash-gated model reuse

    A shallow embedding of

    - [mindmeld/models/embedder_models.py]: the [Embedder] base class with its
      pickled text-to-vector cache, and
    - [mmworkbench/components/role_classifier.py]: the [RoleClassifier]
      component with its fingerprint-gated [fit].

    Python objects become records, dictionaries become [gmap]s, sets become
    [gset]s, lists updated by index use stdpp's list lookup and insert with
    the [IndexError] of an out-of-range access written out.  Calls to the
    collaborators (the embedding model, the statistical model, the logger)
    are recorded in an event trace, so that "is / is not invoked" is a
    statement about that trace. *)

From stdpp Require Import gmap strings list sorting.
From Stdlib Require Import Strings.Byte.

(** ** Python outcomes *)

(** The exceptions the two files can let escape. *)
Inductive exn : Type :=
  | IndexError
  | NotImplementedError
  | OSError
  | TypeError
  | UnpicklingError
  | ValueError (msg : string).

(** A call either returns a value or raises. *)
Inductive outcome (A : Type) : Type :=
  | Returned (a : A)
  | Raised (e : exn).
Arguments Returned {A} a.
Arguments Raised {A} e.

(** [enumerate(l)] *)
Definition enumerate {A} (l : list A) : list (nat * A) := imap pair l.

(** ** mindmeld/models/embedder_models.py *)

Module Embedder.

(** The abstract methods of the base class: a concrete embedder supplies
    [load] and [encode]. [encode] reads [self.model]. *)
Class Strategy (V Model Kwargs : Type) : Type := {
  load : Kwargs → Model;
  encode : Model → list string → list V;
}.

(** One invocation of [self.encode], with the batch it received. *)
Inductive event : Type :=
  | EncodeCall (text_to_encode : list string).

Section embedder.
Context {V Model Kwargs : Type} `{!Strategy V Model Kwargs}.

(** [path.get_embedder_cache_file_path] lives in another module. *)
Variable get_embedder_cache_file_path : string → string → string.

(** [pickle.load] on the bytes of the cache file: the stored mapping, or
    [None] when the bytes do not deserialize. [pickle.dump] writes it. *)
Variable pickle_load : list byte → option (gmap string V).
Variable pickle_dump : gmap string V → list byte.

(** The instance attributes. *)
Record t : Type := mk {
  cache_path : string;
  cache : gmap string V;
  model : Model;
}.

(** The regular files on disk, by path. Creating the parent folder
    (lines 43-45) adds no regular file. *)
Definition os_path_exists (files : gmap string (list byte)) (p : string) : bool :=
  bool_decide (is_Some (files !! p)).

Definition os_path_getsize (files : gmap string (list byte)) (p : string) : nat :=
  from_option length 0 (files !! p).

Definition open_rb (files : gmap string (list byte)) (p : string) : list byte :=
  default [] (files !! p).

(** [Embedder.__init__] *)
Definition __init__ (files : gmap string (list byte))
    (app_path embedder_type : string) (kwargs : Kwargs) : outcome t :=
  let cache_path := get_embedder_cache_file_path app_path embedder_type in
  if negb (os_path_exists files cache_path)
     || bool_decide (os_path_getsize files cache_path = 0)
  then Returned (mk cache_path ∅ (load kwargs))
  else
    match pickle_load (open_rb files cache_path) with
    | Some content => Returned (mk cache_path content (load kwargs))
    | None => Raised UnpicklingError
    end.

(** [Embedder.clear_cache]: "Deletes the cache file." No attribute of
    [self] is assigned. *)
Definition clear_cache (self : t) (files : gmap string (list byte))
    : t * gmap string (list byte) :=
  if os_path_exists files (cache_path self)
  then (self, delete (cache_path self) files)
  else (self, files).

(** [Embedder.dump] *)
Definition dump (self : t) (files : gmap string (list byte))
    : t * gmap string (list byte) :=
  (self, <[cache_path self := pickle_dump (cache self)]> files).

(** The loop of lines 95-97 over [enumerate(cache_miss_indices)]. Each
    subscript that is out of range raises [IndexError]; the cache keeps
    the entries written before that. *)
Fixpoint fill (its : list (nat * nat)) (text_to_encode : list string)
    (model_encoded_text : list V) (encoded : list (option V))
    (c : gmap string V) : outcome (list (option V)) * gmap string V :=
  match its with
  | [] => (Returned encoded, c)
  | (i, v) :: its' =>
      match model_encoded_text !! i, text_to_encode !! i with
      | Some x, Some text =>
          if decide (v < length encoded)
          then fill its' text_to_encode model_encoded_text
                 (<[v := Some x]> encoded) (<[text := x]> c)
          else (Raised IndexError, c)
      | _, _ => (Raised IndexError, c)
      end
  end.

(** [Embedder.get_encodings]. The result is the returned list (an entry
    [None] is Python's [None]), the embedder with its mutated cache, and
    the [encode] calls made. *)
Definition get_encodings (self : t) (text_list : list string)
    : outcome (list (option V)) * t * list event :=
  let encoded := (λ text, cache self !! text) <$> text_list in
  let cache_miss_indices :=
    (filter (λ iv, iv.2 = None) (enumerate encoded)).*1 in
  match mapM (λ i, text_list !! i) cache_miss_indices with
  | None => (Raised IndexError, self, [])
  | Some text_to_encode =>
      let model_encoded_text := encode (model self) text_to_encode in
      let '(r, c) := fill (enumerate cache_miss_indices) text_to_encode
                       model_encoded_text encoded (cache self) in
      (r, mk (cache_path self) c (model self), [EncodeCall text_to_encode])
  end.

(** *** The contract of [get_encodings], in the words of the specification *)

(** The cache misses of a text list, "collected in original relative
    order". *)
Definition misses (c : gmap string V) (text_list : list string) : list string :=
  filter (λ text, c !! text = None) text_list.

(** "One vector per input, same order as input": a hit takes its value
    from the cache, a miss takes the next vector of the encode result. *)
Fixpoint assemble (c : gmap string V) (text_list : list string)
    (vectors : list V) : list (option V) :=
  match text_list with
  | [] => []
  | text :: rest =>
      match c !! text with
      | Some v => Some v :: assemble c rest vectors
      | None => head vectors :: assemble c rest (tail vectors)
      end
  end.

(** "Write each returned vector back into the cache keyed by its source
    text." *)
Definition write_back (c : gmap string V) (texts : list string)
    (vectors : list V) : gmap string V :=
  foldl (λ c tv, <[tv.1 := tv.2]> c) c (zip texts vectors).

(** The indices of the [None] entries of [encoded], counted from [k]:
    [cache_miss_indices] is [miss_indices_from 0 encoded]. *)
Definition miss_indices_from (k : nat) (encoded : list (option V)) : list nat :=
  (filter (λ iv, iv.2 = None) (imap (λ i x, (k + i, x)) encoded)).*1.

End embedder.

End Embedder.

(** ** mmworkbench/components/role_classifier.py *)

Module RoleClassifier.

(** *** The objects the classifier reads

    [Query], [ProcessedQuery] and the entity classes come from [..core];
    only the attributes this file reads are kept. *)

Record Query : Type := { text : string }.

(** [entity.entity]: [.type] and [.role]; a missing role is [None]. *)
Record Entity : Type := { type : string; role : option string }.

(** An element of [query.entities]. *)
Record QueryEntity : Type := { entity : Entity }.

Record ProcessedQuery : Type := {
  query : Query;
  entities : list QueryEntity;
}.

(** [(query.query, query.entities, idx)] *)
Definition Example : Type := Query * list QueryEntity * nat.

(** A label is whatever [entity.entity.role] holds. *)
Definition Label : Type := option string.

(** Truth value of a [str]-or-[None] object. *)
Definition truthy (o : option string) : bool :=
  match o with
  | Some s => negb (String.eqb s "")
  | None => false
  end.

(** A query tree is a dict of dicts of lists, in iteration order:
    domain, then intent, then the queries. With [raw=True] the leaves
    are the raw query texts. *)
Definition item (raw : bool) : Type := if raw then string else ProcessedQuery.
Definition query_tree (A : Type) : Type := list (string * list (string * list A)).

(** Modelled from the spec: [ResourceLoader.flatten_query_tree], which
    lives outside this file, "flattens a grouped query structure into a
    flat sequence". *)
Definition flatten_query_tree {A} (tree : query_tree A) : list A :=
  tree ≫= λ d, d.2 ≫= λ i, i.2.

(** *** Collaborators

    Everything the classifier calls that is defined elsewhere: the model
    factory and the model's methods ([..models]), the configuration
    resolver ([._config], [.classifier]), the resource loader, and the
    inherited [Classifier._build_query_tree]. *)
Class Collaborators (Model ModelConfig ClassifierConfig Gazetteers : Type) : Type := {
  ENTITY_EXAMPLE_TYPE : string;
  CLASS_LABEL_TYPE : string;
  (* ..models *)
  create_model : ModelConfig → Model;
  initialize_resources : Model → option (list ProcessedQuery) → list Label → Model;
  model_fit : Model → list Example → list Label → Model;
  register_resources : Model → Gazetteers → Model;
  model_config : Model → ModelConfig;
  model_predict : Model → list Example → list string;
  (* ._config and .classifier *)
  get_classifier_config :
    string → string → string → string → string → gmap string string;
  super_get_model_config : gmap string string → gmap string string → ModelConfig;
  from_model_config : ModelConfig → ClassifierConfig;
  (* self._resource_loader *)
  app_path : string;
  get_labeled_queries : string → string → string → ∀ raw, query_tree (item raw);
  hash_queries : list string → string;
  get_gazetteers : Gazetteers;
  create_query : string → Query;
  (* Classifier *)
  _build_query_tree : list ProcessedQuery → ∀ raw, query_tree (item raw);
  hash_config_and_queries : ModelConfig → string → string;
}.

(** What is on disk at a path: a joblib dump of [rc_data], or a text file. *)
Inductive file (Model : Type) : Type :=
  | Artifact (model : option Model) (roles : gset Label)
  | TextFile (content : string).
Arguments Artifact {Model} model roles.
Arguments TextFile {Model} content.

Inductive level : Type := INFO | ERROR.

(** The calls that leave the classifier. *)
Inductive event : Type :=
  | Log (lvl : level) (fmt : string) (args : list string)
  | JoblibLoad (model_path : string)
  | ModelFit (examples : list Example) (labels : list Label).

Section role_classifier.
Context {Model ModelConfig ClassifierConfig Gazetteers : Type}.
Context `{!Collaborators Model ModelConfig ClassifierConfig Gazetteers}.

(** The instance attributes. *)
Record t : Type := mk {
  domain : string;
  intent : string;
  entity_type : string;
  roles : gset Label;
  _model : option Model;
  config : option ClassifierConfig;
  hash : option string;
  ready : bool;
  dirty : bool;
}.

Definition set_roles (r : gset Label) (s : t) : t :=
  mk (domain s) (intent s) (entity_type s) r (_model s) (config s) (hash s) (ready s) (dirty s).
Definition set_model (m : option Model) (s : t) : t :=
  mk (domain s) (intent s) (entity_type s) (roles s) m (config s) (hash s) (ready s) (dirty s).
Definition set_config (c : option ClassifierConfig) (s : t) : t :=
  mk (domain s) (intent s) (entity_type s) (roles s) (_model s) c (hash s) (ready s) (dirty s).
Definition set_hash (h : option string) (s : t) : t :=
  mk (domain s) (intent s) (entity_type s) (roles s) (_model s) (config s) h (ready s) (dirty s).
Definition set_ready (b : bool) (s : t) : t :=
  mk (domain s) (intent s) (entity_type s) (roles s) (_model s) (config s) (hash s) b (dirty s).
Definition set_dirty (b : bool) (s : t) : t :=
  mk (domain s) (intent s) (entity_type s) (roles s) (_model s) (config s) (hash s) (ready s) b.

(** *** The state a method runs in, and the monad of methods *)

Record world : Type := World {
  this : t;
  disk : gmap string (file Model);
  trace : list event;
}.

Definition M (A : Type) : Type := world → outcome A * world.

#[export] Instance M_ret : MRet M := λ A a w, (Returned a, w).
#[export] Instance M_bind : MBind M := λ A B k m w,
  match m w with
  | (Returned a, w') => k a w'
  | (Raised e, w') => (Raised e, w')
  end.

Definition raise {A} (e : exn) : M A := λ w, (Raised e, w).
Definition self : M t := λ w, (Returned (this w), w).
Definition assign (f : t → t) : M unit :=
  λ w, (Returned (), World (f (this w)) (disk w) (trace w)).
Definition emit (ev : event) : M unit :=
  λ w, (Returned (), World (this w) (disk w) (trace w ++ [ev])).
Definition read_disk : M (gmap string (file Model)) := λ w, (Returned (disk w), w).
Definition write_file (p : string) (f : file Model) : M unit :=
  λ w, (Returned (), World (this w) (<[p := f]> (disk w)) (trace w)).

(** [for x in l: body x] *)
Fixpoint for_each {A} (l : list A) (body : A → M unit) : M unit :=
  match l with
  | [] => mret ()
  | x :: l' => body x;; for_each l' body
  end.
(** *** Methods *)

Definition CLF_TYPE : string := "role".

(** [RoleClassifier.__init__]. Modelled from the spec: the inherited
    [Classifier.__init__] is outside this file; before any fit or load
    the classifier has no model and is not ready. *)
Definition __init__ (domain intent entity_type : string) : t :=
  mk domain intent entity_type ∅ None None None false false.

(** [RoleClassifier._get_model_config] *)
Definition _get_model_config (s : t) (kwargs : gmap string string) : ModelConfig :=
  let kwargs := <["example_type" := ENTITY_EXAMPLE_TYPE]> kwargs in
  let kwargs := <["label_type" := CLASS_LABEL_TYPE]> kwargs in
  let loaded_config :=
    get_classifier_config CLF_TYPE app_path (domain s) (intent s) (entity_type s) in
  super_get_model_config loaded_config kwargs.

(** [RoleClassifier._get_query_tree]; [if queries:] holds for a
    non-empty list. *)
Definition _get_query_tree (s : t) (queries : option (list ProcessedQuery))
    (label_set : string) (raw : bool) : query_tree (item raw) :=
  match queries with
  | Some (q :: qs) => _build_query_tree (q :: qs) raw
  | _ => get_labeled_queries (domain s) (intent s) label_set raw
  end.

(** The inner loop of lines 228-231 for one query. *)
Definition scan_query (entity_type : string)
    (acc : list Example * list Label) (q : ProcessedQuery)
    : list Example * list Label :=
  foldl (λ acc ie,
           if bool_decide (type (entity ie.2) = entity_type)
              && truthy (role (entity ie.2))
           then (acc.1 ++ [(query q, entities q, ie.1)],
                 acc.2 ++ [role (entity ie.2)])
           else acc)
        acc (enumerate (entities q)).

(** [RoleClassifier._get_queries_and_labels]. The returned [(), ()] is
    the pair of empty sequences. *)
Definition _get_queries_and_labels (queries : option (list ProcessedQuery))
    (label_set : string) : M (list Example * list Label) :=
  s ← self;
  let query_tree := _get_query_tree s queries label_set false in
  let queries : list ProcessedQuery := flatten_query_tree query_tree in
  let el := foldl (scan_query (entity_type s)) ([], []) queries in
  let examples := el.1 in
  let labels := el.2 in
  let unique_labels : gset Label := list_to_set labels in
  if decide (size unique_labels = 1) then mret ([], [])
  else if decide (None ∈ unique_labels) then
    let bad_examples :=
      (filter (λ ie, labels !! ie.1 = Some None) (enumerate examples)).*2 in
    for_each bad_examples (λ example,
      emit (Log ERROR "Invalid entity annotation, expecting role in query %r"
              [text example.1.1]));;
    raise (ValueError "One or more invalid entity annotations, expecting role")
  else mret (examples, labels).

(** [RoleClassifier._get_queries_and_labels_hash]; [queries.sort()]
    orders the raw texts, which are [str], lexicographically. *)
Definition _get_queries_and_labels_hash (s : t)
    (queries : option (list ProcessedQuery)) (label_set : string) : string :=
  let query_tree := _get_query_tree s queries label_set true in
  let queries : list string := flatten_query_tree query_tree in
  let queries := merge_sort String.le queries in
  hash_queries queries.

(** Modelled from the spec: the inherited [Classifier._get_model_hash]
    is outside this file; the fingerprint is "a digest computed over the
    resolved training configuration and the content of the training
    query set", the latter through [_get_queries_and_labels_hash]. *)
Definition _get_model_hash (s : t) (model_config : ModelConfig)
    (queries : option (list ProcessedQuery)) (label_set : string) : string :=
  hash_config_and_queries model_config
    (_get_queries_and_labels_hash s queries label_set).

(** Modelled from the spec: the inherited [Classifier._load_hash] is
    outside this file; the fingerprint record is the "sibling plain-text
    file at [<artifact-path>.hash] containing exactly the fingerprint
    string", and there may be "no fingerprint record found at the
    derived path". *)
Definition _load_hash (files : gmap string (file Model)) (model_path : string)
    : option string :=
  match files !! (model_path +:+ ".hash") with
  | Some (TextFile h) => Some h
  | _ => None
  end.

(** [joblib.load]: a missing file is an [OSError], a file that is not a
    joblib dump does not unpickle. *)
Definition joblib_load (model_path : string) : M (option Model * gset Label) :=
  emit (JoblibLoad model_path);;
  files ← read_disk;
  match files !! model_path with
  | Some (Artifact m r) => mret (m, r)
  | Some (TextFile _) => raise UnpicklingError
  | None => raise OSError
  end.

(** [try: body / except (OSError, IOError): handler] *)
Definition try_except_OSError {A} (body handler : M A) : M A := λ w,
  match body w with
  | (Raised OSError, w') => handler w'
  | r => r
  end.

(** [RoleClassifier.load] *)
Definition load (model_path : string) : M unit :=
  s ← self;
  emit (Log INFO "Loading role classifier: domain=%r, intent=%r, entity_type=%r"
          [domain s; intent s; entity_type s]);;
  loaded ← try_except_OSError
    (rc_data ← joblib_load model_path;
     assign (set_model rc_data.1);;
     assign (set_roles rc_data.2);;
     mret true)
    (emit (Log ERROR "Unable to load %s. Pickle file cannot be read from %r"
             ["RoleClassifier"; model_path]);;
     mret false);
  if loaded : bool then
    s ← self;
    match _model s with
    | Some m =>
        let gazetteers := get_gazetteers in
        let m := register_resources m gazetteers in
        assign (set_model (Some m));;
        assign (set_config (Some (from_model_config (model_config m))));;
        files ← read_disk;
        assign (set_hash (_load_hash files model_path))
    | None => mret ()
    end;;
    assign (set_ready true);;
    assign (set_dirty false)
  else mret ().

(** [RoleClassifier.dump]. The disk holds regular files only, so making
    the folder (lines 117-120) changes nothing here. Opening the hash file
    for writing truncates it before [write] looks at [self.hash]. *)
Definition dump (model_path : string) : M unit :=
  s ← self;
  emit (Log INFO "Saving role classifier: domain=%r, intent=%r, entity_type=%r"
          [domain s; intent s; entity_type s]);;
  write_file model_path (Artifact (_model s) (roles s));;
  let hash_path := model_path +:+ ".hash" in
  match hash s with
  | Some h => write_file hash_path (TextFile h)
  | None => write_file hash_path (TextFile "");; raise TypeError
  end;;
  assign (set_dirty false).

(** Lines 91-107 of [RoleClassifier.fit]: what runs when the previous
    model is not reused. *)
Definition fit_from_data (model : Model) (new_hash : string)
    (queries : option (list ProcessedQuery)) (label_set : string) : M unit :=
  el ← _get_queries_and_labels queries label_set;
  let examples := el.1 in
  let labels := el.2 in
  match examples with
  | _ :: _ =>
      assign (set_roles ∅);;
      for_each labels (λ label, assign (λ s, set_roles (roles s ∪ {[label]}) s));;
      let model := initialize_resources model queries labels in
      emit (ModelFit examples labels);;
      let model := model_fit model examples labels in
      assign (set_model (Some model));;
      assign (set_config (Some (from_model_config (model_config model))))
  | [] => mret ()
  end;;
  assign (set_hash (Some new_hash));;
  assign (set_ready true);;
  assign (set_dirty true).

(** [RoleClassifier.fit]; [if previous_model_path:] holds for a
    non-empty path. *)
Definition fit (queries : option (list ProcessedQuery)) (label_set : string)
    (previous_model_path : option string) (kwargs : gmap string string)
    : M unit :=
  s ← self;
  emit (Log INFO "Fitting role classifier: domain=%r, intent=%r, entity_type=%r"
          [domain s; intent s; entity_type s]);;
  let model_config := _get_model_config s kwargs in
  let model := create_model model_config in
  let new_hash := _get_model_hash s model_config queries label_set in
  match previous_model_path with
  | Some p =>
      if truthy (Some p) then
        files ← read_disk;
        let old_hash := _load_hash files p in
        if decide (old_hash = Some new_hash) then
          emit (Log INFO "No need to fit. Loading previous model." []);;
          load p
        else fit_from_data model new_hash queries label_set
      else fit_from_data model new_hash queries label_set
  | None => fit_from_data model new_hash queries label_set
  end.

(** [RoleClassifier.predict]; the query is a [Query] or a raw text. *)
Definition predict (query : string + Query) (entities : list QueryEntity)
    (entity_index : nat) : M (option string) :=
  s ← self;
  match _model s with
  | None =>
      emit (Log ERROR "You must fit or load the model before running predict" []);;
      mret None
  | Some m =>
      let query :=
        match query with inl raw => create_query raw | inr q => q end in
      let gazetteers := get_gazetteers in
      let m := register_resources m gazetteers in
      assign (set_model (Some m));;
      match model_predict m [(query, entities, entity_index)] !! 0 with
      | Some r => mret (Some r)
      | None => raise IndexError
      end
  end.
(** [RoleClassifier.predict_proba] *)
Definition predict_proba {A} (query : string + Query)
    (entities : list QueryEntity) (entity_index : nat) : M A :=
  raise NotImplementedError.

(** *** The training data, read off the loops *)

(** An entity is eligible when it is "of this role classifier's type" and
    carries a role that counts as true. *)
Definition eligible (entity_type : string) (e : QueryEntity) : bool :=
  bool_decide (type (entity e) = entity_type) && truthy (role (entity e)).

(** The examples with their labels, as one comprehension over the queries
    and their entities. *)
Definition labelled (entity_type : string) (queries : list ProcessedQuery)
    : list (Example * Label) :=
  queries ≫= λ q,
    omap (λ ie : nat * QueryEntity,
            if eligible entity_type ie.2
            then Some ((query q, entities q, ie.1), role (entity ie.2))
            else None)
         (enumerate (entities q)).

(** The queries [_get_queries_and_labels] scans. *)
Definition training_queries (s : t) (queries : option (list ProcessedQuery))
    (label_set : string) : list ProcessedQuery :=
  flatten_query_tree (_get_query_tree s queries label_set false).

(** What [_get_queries_and_labels] returns when it returns. *)
Definition training_data (s : t) (queries : option (list ProcessedQuery))
    (label_set : string) : list Example * list Label :=
  let el := labelled (entity_type s) (training_queries s queries label_set) in
  if decide (size (list_to_set el.*2 : gset Label) = 1) then ([], [])
  else (el.*1, el.*2).

(** The line [fit] logs on entry. *)
Definition fitting (s : t) : event :=
  Log INFO "Fitting role classifier: domain=%r, intent=%r, entity_type=%r"
    [domain s; intent s; entity_type s].


End role_classifier.

End RoleClassifier.

(** ** Concrete collaborators for the examples *)

Module Examples.

(** An embedder whose vector for a text is its length and a constant. *)
Definition length_vector (text : string) : list nat := [String.length text; 1].

#[export] Instance length_embedder : Embedder.Strategy (list nat) unit unit := {|
  Embedder.load := λ _, ();
  Embedder.encode := λ _ text_list, length_vector <$> text_list;
|}.

Definition cache_file_path (app_path embedder_type : string) : string :=
  app_path +:+ "/.generated/" +:+ embedder_type +:+ "_cache.pkl".

(** The pickle stream made of the opcodes [EMPTY_DICT] and [STOP]:
    [pickle.load] reads it as the empty dict. *)
Definition pickled_empty_dict : list byte := [x7d; x2e].

(** A deserializer that knows that one stream. *)
Definition pickle_load_empty_dict (bytes : list byte)
    : option (gmap string (list nat)) :=
  match bytes with
  | [x7d; x2e] => Some ∅
  | _ => None
  end.

Definition cold_embedder : Embedder.t (V := list nat) (Model := unit) :=
  Embedder.mk (cache_file_path "app" "bert") ∅ ().

Definition warm_embedder : Embedder.t (V := list nat) (Model := unit) :=
  Embedder.mk (cache_file_path "app" "bert") {[ "hello" := [5; 1] ]} ().

(** A model that remembers the labels it was fitted on and always
    predicts the first of them. *)
Definition toy_model : Type := gmap string string * list RoleClassifier.Label.

Definition to_item (raw : bool) (q : RoleClassifier.ProcessedQuery)
    : RoleClassifier.item raw :=
  match raw return RoleClassifier.item raw with
  | true => RoleClassifier.text (RoleClassifier.query q)
  | false => q
  end.

#[export] Instance toy_collaborators :
  RoleClassifier.Collaborators toy_model (gmap string string) (gmap string string) unit := {|
  RoleClassifier.ENTITY_EXAMPLE_TYPE := "entity";
  RoleClassifier.CLASS_LABEL_TYPE := "class";
  RoleClassifier.create_model := λ cfg, (cfg, []);
  RoleClassifier.initialize_resources := λ m _ _, m;
  RoleClassifier.model_fit := λ m _ labels, (m.1, labels);
  RoleClassifier.register_resources := λ m _, m;
  RoleClassifier.model_config := λ m, m.1;
  RoleClassifier.model_predict := λ m examples,
    (λ _, default "" (head (omap id m.2))) <$> examples;
  RoleClassifier.get_classifier_config := λ _ _ _ _ _, {[ "model_type" := "maxent" ]};
  RoleClassifier.super_get_model_config := λ loaded kwargs, kwargs ∪ loaded;
  RoleClassifier.from_model_config := λ cfg, cfg;
  RoleClassifier.app_path := "app";
  RoleClassifier.get_labeled_queries := λ _ _ _ _, [];
  RoleClassifier.hash_queries := String.concat "|";
  RoleClassifier.get_gazetteers := ();
  RoleClassifier.create_query := λ raw, {| RoleClassifier.text := raw |};
  RoleClassifier._build_query_tree := λ queries raw,
    [("travel", [("book_flight", to_item raw <$> queries)])];
  RoleClassifier.hash_config_and_queries := λ cfg queries_hash,
    default "" (cfg !! "model_type") +:+ ":" +:+ queries_hash;
|}.

Definition city (r : option string) : RoleClassifier.QueryEntity :=
  {| RoleClassifier.entity := {| RoleClassifier.type := "city"; RoleClassifier.role := r |} |}.

Definition processed (raw : string) (es : list RoleClassifier.QueryEntity)
    : RoleClassifier.ProcessedQuery :=
  {| RoleClassifier.query := {| RoleClassifier.text := raw |};
     RoleClassifier.entities := es |}.

(** A training set with one unannotated city next to two annotated ones. *)
Definition unannotated_queries : list RoleClassifier.ProcessedQuery :=
  [ processed "fly to paris" [city None];
    processed "fly from rome" [city (Some "origin")];
    processed "fly to oslo" [city (Some "destination")] ].


(** A fresh classifier, nothing on disk, nothing traced. *)
Definition fresh_world
    : RoleClassifier.world (Model := toy_model)
        (ClassifierConfig := gmap string string) :=
  RoleClassifier.World
    (RoleClassifier.__init__ "travel" "book_flight" "city") ∅ [].


End Examples.

(** * Facts about the embedder *)

Module EmbedderFacts.
Import Embedder.

Section facts.
Context {V Model Kwargs : Type} `{!Strategy V Model Kwargs}.
Implicit Types (c : gmap string V) (text_list : list string).

Lemma miss_indices_from_cons k (o : option V) (enc : list (option V)) :
  miss_indices_from k (o :: enc) =
  (if o is None then [k] else []) ++ miss_indices_from (S k) enc.
Proof.
  unfold miss_indices_from. rewrite imap_cons, filter_cons. simpl.
  rewrite (imap_ext _ (λ i x, (S k + i, x)) enc) by (intros; simpl; f_equal; lia).
  destruct o; simpl; [done|]. by rewrite Nat.add_0_r.
Qed.

Lemma miss_indices_enumerate (enc : list (option V)) :
  (filter (λ iv, iv.2 = None) (enumerate enc)).*1 = miss_indices_from 0 enc.
Proof. done. Qed.

Lemma misses_cons c text rest :
  misses c (text :: rest) =
  (if c !! text is None then [text] else []) ++ misses c rest.
Proof.
  unfold misses. rewrite filter_cons.
  by destruct (c !! text) eqn:E.
Qed.

Lemma text_to_encode_misses c text_list pre :
  mapM (λ i, (pre ++ text_list) !! i)
    (miss_indices_from (length pre) ((λ text, c !! text) <$> text_list))
  = Some (misses c text_list).
Proof.
  revert pre. induction text_list as [|text rest IH]; intros pre; [done|].
  rewrite fmap_cons, miss_indices_from_cons, misses_cons.
  specialize (IH (pre ++ [text])). rewrite length_app in IH. simpl in IH.
  rewrite Nat.add_1_r, <-(assoc_L (++)) in IH. simpl in IH.
  destruct (c !! text); simpl; [done|].
  rewrite list_lookup_middle by done. simpl. by rewrite IH.
Qed.


Lemma drop_cons_inv {A} (l : list A) j x rest :
  drop j l = x :: rest → l !! j = Some x ∧ drop (S j) l = rest.
Proof.
  intros Hd. split.
  - rewrite <-(Nat.add_0_r j), <-lookup_drop, Hd. done.
  - rewrite <-(Nat.add_1_r j), <-drop_drop, Hd. done.
Qed.

Lemma fill_spec c0 text_to_encode vectors text_list :
  ∀ pre j c,
    drop j text_to_encode = misses c0 text_list →
    length (misses c0 text_list) ≤ length (drop j vectors) →
    fill (imap (λ i v, (j + i, v))
            (miss_indices_from (length pre) ((λ text, c0 !! text) <$> text_list)))
         text_to_encode vectors
         (pre ++ ((λ text, c0 !! text) <$> text_list)) c
    = (Returned (pre ++ assemble c0 text_list (drop j vectors)),
       write_back c (misses c0 text_list) (drop j vectors)).
Proof.
  induction text_list as [|text rest IH]; intros pre j c Htte Hlen.
  { done. }
  rewrite fmap_cons, miss_indices_from_cons.
  rewrite misses_cons in Htte, Hlen. rewrite misses_cons. simpl assemble.
  destruct (c0 !! text) as [v|] eqn:Hc; simpl in *.
  - specialize (IH (pre ++ [Some v]) j c Htte Hlen).
    rewrite length_app, Nat.add_1_r in IH.
    by rewrite <-!(assoc_L (++)) in IH.
  - destruct (drop j vectors) as [|x vs] eqn:Hv; simpl in Hlen; [lia|].
    apply drop_cons_inv in Hv as [Hx Hvs], Htte as [Ht Hrest].
    rewrite Nat.add_0_r, Hx, Ht.
    rewrite decide_True by (rewrite length_app; simpl; lia).
    rewrite insert_app_r_alt, Nat.sub_diag by done. simpl.
    rewrite (imap_ext _ (λ i v, (S j + i, v))) by (intros; simpl; f_equal; lia).
    specialize (IH (pre ++ [Some x]) (S j) (<[text:=x]> c)).
    rewrite Hvs, length_app, Nat.add_1_r, <-!(assoc_L (++)) in IH.
    unfold write_back. simpl. apply IH; [done|lia].
Qed.

(** What [get_encodings] computes when [encode] returns at least one
    vector per text of its batch. *)
Lemma get_encodings_spec (self : t) text_list :
  length (misses (cache self) text_list)
    ≤ length (encode (model self) (misses (cache self) text_list)) →
  get_encodings self text_list =
    (Returned (assemble (cache self) text_list
                 (encode (model self) (misses (cache self) text_list))),
     mk (cache_path self)
        (write_back (cache self) (misses (cache self) text_list)
           (encode (model self) (misses (cache self) text_list)))
        (model self),
     [EncodeCall (misses (cache self) text_list)]).
Proof.
  intros Hlen. unfold get_encodings. rewrite miss_indices_enumerate.
  pose proof (text_to_encode_misses (cache self) text_list []) as Hm.
  simpl in Hm. rewrite Hm.
  pose proof (fill_spec (cache self) (misses (cache self) text_list)
                (encode (model self) (misses (cache self) text_list))
                text_list [] 0 (cache self)) as Hf.
  simpl in Hf. unfold enumerate.
  rewrite (imap_ext pair (λ i v, (i, v))) by done.
  rewrite Hf by done. done.
Qed.


Lemma length_assemble c text_list vectors :
  length (assemble c text_list vectors) = length text_list.
Proof.
  revert vectors. induction text_list as [|text rest IH]; intros vectors; [done|].
  simpl. destruct (c !! text); simpl; by rewrite IH.
Qed.

Lemma assemble_lookup c text_list vectors i text :
  text_list !! i = Some text →
  assemble c text_list vectors !! i =
    Some (match c !! text with
          | Some v => Some v
          | None => vectors !! length (misses c (take i text_list))
          end).
Proof.
  revert vectors i. induction text_list as [|t rest IH]; intros vectors i Hi; [done|].
  destruct i as [|i]; simpl in Hi.
  - simplify_eq. simpl. destruct (c !! text); [done|]. simpl.
    by rewrite head_lookup.
  - simpl take. rewrite misses_cons. simpl assemble.
    destruct (c !! t); simpl; rewrite (IH _ _ Hi); [done|].
    destruct (c !! text); [done|]. by rewrite lookup_tail.
Qed.

Lemma misses_lookup_rank c text_list i text :
  text_list !! i = Some text → c !! text = None →
  misses c text_list !! length (misses c (take i text_list)) = Some text.
Proof.
  intros Hi Hc.
  assert (misses c text_list =
          misses c (take i text_list) ++ text :: misses c (drop (S i) text_list))
    as ->.
  { rewrite <-(take_drop_middle _ _ _ Hi) at 1.
    unfold misses. by rewrite filter_app, filter_cons, decide_True. }
  by rewrite list_lookup_middle.
Qed.

Lemma misses_miss c text_list text :
  text ∈ misses c text_list ↔ text ∈ text_list ∧ c !! text = None.
Proof. unfold misses. rewrite list_elem_of_filter. tauto. Qed.

Lemma misses_all_hits c text_list :
  (∀ text, text ∈ text_list → is_Some (c !! text)) → misses c text_list = [].
Proof.
  intros Hhit. apply elem_of_nil_inv. intros text [Hin Hc]%misses_miss.
  destruct (Hhit _ Hin) as [v Hv]. congruence.
Qed.

Lemma assemble_all_hits c text_list vectors :
  (∀ text, text ∈ text_list → is_Some (c !! text)) →
  assemble c text_list vectors = (λ text, c !! text) <$> text_list.
Proof.
  induction text_list as [|text rest IH]; intros Hhit; [done|].
  simpl. destruct (Hhit text) as [v Hv]; [by left|]. rewrite Hv.
  f_equal. apply IH. intros ??. apply Hhit. by right.
Qed.


(** C8. When [encode] answers with a vector for every text of its
    batch, [get_encodings] returns one entry per input, in input order.
    The single batch handed to [encode] is the list of uncached inputs in
    their original relative order, so it holds no cached text. The entry
    of a cached input is its cached vector; the entry of an uncached
    input is the vector [encode] returned at that input's position in
    the batch. *)
Theorem get_encodings_order_and_hits (self : t) text_list :
  let batch := misses (cache self) text_list in
  let vectors := encode (model self) batch in
  length batch ≤ length vectors →
  ∃ encoded self',
    get_encodings self text_list = (Returned encoded, self', [EncodeCall batch])
    ∧ length encoded = length text_list
    ∧ batch = filter (λ text, cache self !! text = None) text_list
    ∧ (∀ text, text ∈ batch → cache self !! text = None)
    ∧ (∀ i text v, text_list !! i = Some text → cache self !! text = Some v →
         encoded !! i = Some (Some v))
    ∧ (∀ i text, text_list !! i = Some text → cache self !! text = None →
         ∃ j x, j = length (misses (cache self) (take i text_list))
                ∧ batch !! j = Some text ∧ vectors !! j = Some x
                ∧ encoded !! i = Some (Some x)).
Proof.
  intros batch vectors Hlen. eexists _, _.
  split; [by apply get_encodings_spec|].
  split; [by apply length_assemble|].
  split; [done|].
  split; [by intros text [_ ?]%misses_miss|].
  split.
  - intros i text v Hi Hc. by rewrite (assemble_lookup _ _ _ _ _ Hi), Hc.
  - intros i text Hi Hc.
    pose proof (misses_lookup_rank _ _ _ _ Hi Hc) as Hj.
    destruct (lookup_lt_is_Some_2 vectors
                (length (misses (cache self) (take i text_list)))) as [x Hx].
    { apply lookup_lt_Some in Hj. fold batch in Hj. lia. }
    eexists _, x. split; [done|]. split; [done|]. split; [done|].
    subst vectors batch. by rewrite (assemble_lookup _ _ _ _ _ Hi), Hc, Hx.
Qed.

(** C4, as amended. For a text list that is empty or whose entries are
    all cached, [get_encodings] still invokes [encode], exactly once and
    with the empty batch; it returns the cached vectors in input order
    and leaves the embedder as it was. *)
Theorem get_encodings_all_hits (self : t) text_list :
  (∀ text, text ∈ text_list → is_Some (cache self !! text)) →
  get_encodings self text_list =
    (Returned ((λ text, cache self !! text) <$> text_list), self, [EncodeCall []]).
Proof.
  intros Hhit. rewrite get_encodings_spec; rewrite (misses_all_hits _ _ Hhit).
  - rewrite (assemble_all_hits _ _ _ Hhit). by destruct self.
  - simpl. lia.
Qed.

Lemma write_back_lookup (embed : string → V) c texts text :
  write_back c texts (embed <$> texts) !! text =
    if decide (text ∈ texts) then Some (embed text) else c !! text.
Proof.
  revert c. induction texts as [|t rest IH]; intros c.
  { done. }
  unfold write_back in *. simpl. rewrite IH.
  destruct (decide (text ∈ rest)) as [Hin|Hnin].
  - rewrite decide_True; [done|by right].
  - destruct (decide (t = text)) as [->|Hne].
    + rewrite decide_True by left. by rewrite lookup_insert_eq.
    + rewrite decide_False; [by rewrite lookup_insert_ne|].
      intros [?|?]%elem_of_cons; congruence.
Qed.

Lemma assemble_pointwise (embed : string → V) c text_list :
  assemble c text_list (embed <$> misses c text_list) =
    (λ text, Some (default (embed text) (c !! text))) <$> text_list.
Proof.
  induction text_list as [|text rest IH]; [done|].
  rewrite misses_cons. simpl. destruct (c !! text) eqn:Hc; simpl; f_equal; exact IH.
Qed.

(** C5, as amended. When [encode] computes its vectors text by text,
    two successive calls of [get_encodings] on the same list return the
    same vectors; the second call changes nothing in the embedder and
    hands no text to [encode], which it nevertheless invokes once, with
    the empty batch. *)
Theorem get_encodings_twice (embed : string → V) (self : t) text_list :
  encode (model self) (misses (cache self) text_list)
    = embed <$> misses (cache self) text_list →
  ∃ encoded self1,
    get_encodings self text_list =
      (Returned encoded, self1, [EncodeCall (misses (cache self) text_list)])
    ∧ get_encodings self1 text_list = (Returned encoded, self1, [EncodeCall []]).
Proof.
  intros Henc. eexists _, _. split.
  { apply get_encodings_spec. by rewrite Henc, length_fmap. }
  rewrite Henc. set (c := cache self).
  assert (∀ text, text ∈ text_list →
            write_back c (misses c text_list) (embed <$> misses c text_list) !! text
            = Some (default (embed text) (c !! text))) as Hhit.
  { intros text Hin. rewrite write_back_lookup.
    destruct (c !! text) as [v|] eqn:Hc; simpl.
    - rewrite decide_False; [done|]. intros [_ ?]%misses_miss. congruence.
    - rewrite decide_True; [done|]. by apply misses_miss. }
  rewrite get_encodings_all_hits; simpl.
  - do 3 f_equal. rewrite assemble_pointwise.
    apply list_fmap_ext. intros i text Hi. apply Hhit.
    by eapply list_elem_of_lookup_2.
  - intros text Hin. rewrite (Hhit _ Hin). eauto.
Qed.

(** C3, as amended. [clear_cache] removes the backing file and leaves
    the embedder, with its in-memory cache, as it was. The embedder stays
    usable: [get_encodings] on a text that was cached before the clear
    returns the cached vector and hands no text to [encode], which is
    invoked once with the empty batch. *)
Theorem clear_cache_keeps_memory (self : t) (files : gmap string (list byte))
    (text : string) (v : V) :
  cache self !! text = Some v →
  let '(self', files') := clear_cache self files in
  files' !! cache_path self = None
  ∧ self' = self
  ∧ get_encodings self' [text] = (Returned [Some v], self', [EncodeCall []]).
Proof.
  intros Hc. unfold clear_cache, os_path_exists.
  case_bool_decide as Hex.
  - split; [by rewrite lookup_delete_eq|]. split; [done|].
    rewrite get_encodings_all_hits; [by simpl; rewrite Hc|].
    intros ? ->%list_elem_of_singleton. eauto.
  - split; [by apply eq_None_not_Some|]. split; [done|].
    rewrite get_encodings_all_hits; [by simpl; rewrite Hc|].
    intros ? ->%list_elem_of_singleton. eauto.
Qed.

End facts.

Section construction.
Context {V Model Kwargs : Type} `{!Strategy V Model Kwargs}.
Variable get_embedder_cache_file_path : string → string → string.
Variable pickle_load : list byte → option (gmap string V).

Local Abbreviation init := (__init__ get_embedder_cache_file_path pickle_load).

Lemma init_missing_or_empty files app_path embedder_type kwargs :
  let cache_path := get_embedder_cache_file_path app_path embedder_type in
  files !! cache_path = None ∨ files !! cache_path = Some [] →
  init files app_path embedder_type kwargs
    = Returned (mk cache_path ∅ (load kwargs)).
Proof.
  intros cache_path Hf. unfold init, __init__, os_path_exists, os_path_getsize.
  fold cache_path. by destruct Hf as [-> | ->].
Qed.

Lemma init_non_empty files app_path embedder_type kwargs bytes :
  let cache_path := get_embedder_cache_file_path app_path embedder_type in
  files !! cache_path = Some bytes → bytes ≠ [] →
  init files app_path embedder_type kwargs =
    match pickle_load bytes with
    | Some content => Returned (mk cache_path content (load kwargs))
    | None => Raised UnpicklingError
    end.
Proof.
  intros cache_path Hf Hne. unfold init, __init__, os_path_exists, os_path_getsize, open_rb.
  fold cache_path. rewrite Hf. by destruct bytes.
Qed.

(** C9, as amended. Construction starts with an empty cache when the
    backing file is missing or empty; it raises when the file is
    non-empty and does not deserialize; and when the file is non-empty
    and deserializes, the deserialized mapping, whole, is the cache. The
    cache is therefore empty exactly when the file is missing, is empty,
    or deserializes to the empty mapping. *)
Theorem init_cache files app_path embedder_type kwargs :
  let cache_path := get_embedder_cache_file_path app_path embedder_type in
  let r := init files app_path embedder_type kwargs in
  (files !! cache_path = None ∨ files !! cache_path = Some [] →
     r = Returned (mk cache_path ∅ (load kwargs)))
  ∧ (∀ bytes, files !! cache_path = Some bytes → bytes ≠ [] →
       pickle_load bytes = None → r = Raised UnpicklingError)
  ∧ (∀ bytes content, files !! cache_path = Some bytes → bytes ≠ [] →
       pickle_load bytes = Some content →
       r = Returned (mk cache_path content (load kwargs)))
  ∧ ((∃ self, r = Returned self ∧ cache self = ∅) ↔
       files !! cache_path = None ∨ files !! cache_path = Some []
       ∨ ∃ bytes, files !! cache_path = Some bytes ∧ pickle_load bytes = Some ∅).
Proof.
  intros cache_path r. subst r.
  split; [by apply init_missing_or_empty|].
  split; [by intros bytes Hf Hne Hp; rewrite (init_non_empty _ _ _ _ _ Hf Hne), Hp|].
  split; [by intros bytes content Hf Hne Hp; rewrite (init_non_empty _ _ _ _ _ Hf Hne), Hp|].
  split.
  - intros (self & Hr & Hc).
    destruct (files !! cache_path) as [bytes|] eqn:Hf; [|by left].
    destruct bytes as [|b bytes]; [by right; left|].
    assert (b :: bytes ≠ []) as Hne by done.
    right; right. exists (b :: bytes). split; [done|].
    rewrite (init_non_empty _ _ _ _ _ Hf Hne) in Hr.
    destruct (pickle_load (b :: bytes)); simplify_eq. simpl in Hc. by rewrite Hc.
  - intros [Hf|[Hf|(bytes & Hf & Hp)]].
    + eexists. split; [apply init_missing_or_empty; by left|done].
    + eexists. split; [apply init_missing_or_empty; by right|done].
    + destruct bytes as [|b bytes]; [|assert (b :: bytes ≠ []) as Hne by done].
      * eexists. split; [apply init_missing_or_empty; by right|done].
      * eexists. split; [by rewrite (init_non_empty _ _ _ _ _ Hf Hne), Hp|done].
Qed.

End construction.

(** *** The theorems at concrete embedders *)

Import Examples.

Lemma get_encodings_order_and_hits_witness :
  length (misses (cache warm_embedder) ["hi"; "hello"; "yo"])
    ≤ length (encode (model warm_embedder)
                (misses (cache warm_embedder) ["hi"; "hello"; "yo"]))
  ∧ ∃ self',
      get_encodings warm_embedder ["hi"; "hello"; "yo"] =
        (Returned [Some [2; 1]; Some [5; 1]; Some [2; 1]], self',
         [EncodeCall ["hi"; "yo"]]).
Proof.
  split; [vm_compute; lia|].
  destruct (get_encodings_order_and_hits warm_embedder ["hi"; "hello"; "yo"])
    as (encoded & self' & Hrun & _); [vm_compute; lia|].
  exists self'. rewrite Hrun. vm_compute in Hrun. by simplify_eq.
Defined.

(** C4 as stated fails: on the empty text list [encode] is invoked, with
    a batch of zero items. *)
Lemma get_encodings_empty_list_invokes_encode :
  (get_encodings cold_embedder []).2 = [EncodeCall []]
  ∧ ¬ (get_encodings cold_embedder []).2 = [].
Proof. by vm_compute. Qed.

Lemma get_encodings_all_hits_witness :
  (∀ text, text ∈ ["hello"; "hello"] → is_Some (cache warm_embedder !! text))
  ∧ get_encodings warm_embedder ["hello"; "hello"] =
      (Returned [Some [5; 1]; Some [5; 1]], warm_embedder, [EncodeCall []]).
Proof.
  assert (∀ text, text ∈ ["hello"; "hello"] →
            is_Some (cache warm_embedder !! text)) as Hhit.
  { intros text Hin. apply elem_of_cons in Hin as [->|Hin]; [by vm_compute; eauto|].
    apply list_elem_of_singleton in Hin as ->. by vm_compute; eauto. }
  split; [done|].
  by rewrite (get_encodings_all_hits warm_embedder ["hello"; "hello"] Hhit).
Defined.

(** C5 as stated fails: the second of two identical calls does invoke
    [encode], once. *)
Lemma get_encodings_second_call_invokes_encode :
  let '(_, self1, _) := get_encodings cold_embedder ["hello"] in
  (get_encodings self1 ["hello"]).2 = [EncodeCall []]
  ∧ length (get_encodings self1 ["hello"]).2 ≠ 0.
Proof. by vm_compute. Qed.

Lemma get_encodings_twice_witness :
  encode (model cold_embedder) (misses (cache cold_embedder) ["a"; "bb"; "a"])
    = length_vector <$> misses (cache cold_embedder) ["a"; "bb"; "a"]
  ∧ ∃ self1,
      get_encodings cold_embedder ["a"; "bb"; "a"] =
        (Returned [Some [1; 1]; Some [2; 1]; Some [1; 1]], self1,
         [EncodeCall ["a"; "bb"; "a"]])
      ∧ get_encodings self1 ["a"; "bb"; "a"] =
        (Returned [Some [1; 1]; Some [2; 1]; Some [1; 1]], self1,
         [EncodeCall []]).
Proof.
  split; [done|].
  destruct (get_encodings_twice length_vector cold_embedder ["a"; "bb"; "a"])
    as (encoded & self1 & Hfirst & Hsecond); [done|].
  exists self1. rewrite Hfirst, Hsecond.
  vm_compute in Hfirst. by simplify_eq.
Defined.

(** C3 as stated fails: after [clear_cache] the in-memory cache is not
    empty, and asking for a text cached before the clear does not reach
    [encode] with that text. *)
Lemma clear_cache_does_not_empty_memory :
  let files : gmap string (list byte) :=
    {[ cache_path warm_embedder := pickled_empty_dict ]} in
  let '(self', files') := clear_cache warm_embedder files in
  files' !! cache_path warm_embedder = None
  ∧ cache self' ≠ ∅
  ∧ (get_encodings self' ["hello"]).2 = [EncodeCall []]
  ∧ (get_encodings self' ["hello"]).2 ≠ [EncodeCall ["hello"]].
Proof.
  vm_compute. split; [done|]. split; [|done].
  intros Heq. discriminate Heq.
Qed.

Lemma clear_cache_keeps_memory_witness :
  cache warm_embedder !! "hello" = Some [5; 1]
  ∧ let '(self', files') := clear_cache warm_embedder ∅ in
    files' !! cache_path warm_embedder = None
    ∧ self' = warm_embedder
    ∧ get_encodings self' ["hello"] = (Returned [Some [5; 1]], self', [EncodeCall []]).
Proof.
  split; [done|].
  exact (clear_cache_keeps_memory warm_embedder ∅ "hello" [5; 1] eq_refl).
Defined.

(** C9 as stated fails in the "only if" direction: a backing file that
    exists, is not empty and holds the pickled empty mapping gives an
    empty cache. *)
Lemma init_empty_cache_from_non_empty_file :
  let files : gmap string (list byte) :=
    {[ cache_file_path "app" "bert" := pickled_empty_dict ]} in
  let r := __init__ cache_file_path pickle_load_empty_dict files "app" "bert" () in
  ¬ ((∃ self, r = Returned self ∧ cache self = ∅) ↔
     files !! cache_file_path "app" "bert" = None
     ∨ files !! cache_file_path "app" "bert" = Some []).
Proof.
  intros files r [Himp _].
  destruct Himp as [Hf|Hf]; [|by vm_compute in Hf..].
  eexists. split; [by vm_compute|done].
Qed.


End EmbedderFacts.

(** * Facts about the role classifier *)

Module RoleClassifierFacts.
Import RoleClassifier.

(** Unfold one layer of the method monad. *)
Ltac run :=
  repeat (unfold mbind, mret, M_bind, M_ret, self, assign, emit, read_disk,
            write_file, raise; simpl).

Section facts.
Context {Model ModelConfig ClassifierConfig Gazetteers : Type}.
Context `{!Collaborators Model ModelConfig ClassifierConfig Gazetteers}.
Implicit Types (w : world (Model := Model) (ClassifierConfig := ClassifierConfig)).
Implicit Types (queries : option (list ProcessedQuery)) (label_set : string).

(** **** The scan of lines 225-231 *)

Lemma scan_entities_spec entity_type (q : ProcessedQuery)
    (l : list (nat * QueryEntity)) (acc : list Example * list Label) :
  let keep := λ ie : nat * QueryEntity,
    if eligible entity_type ie.2
    then Some ((query q, entities q, ie.1), role (entity ie.2))
    else None in
  foldl (λ acc ie,
           if bool_decide (type (entity ie.2) = entity_type)
              && truthy (role (entity ie.2))
           then (acc.1 ++ [(query q, entities q, ie.1)],
                 acc.2 ++ [role (entity ie.2)])
           else acc) acc l
  = (acc.1 ++ (omap keep l).*1, acc.2 ++ (omap keep l).*2).
Proof.
  intros keep. revert acc. induction l as [|ie l IH]; intros acc.
  { simpl. rewrite !app_nil_r. by destruct acc. }
  simpl. rewrite IH. subst keep. simpl. unfold eligible.
  destruct (bool_decide _ && truthy _); simpl; [|done].
  by rewrite <-!(assoc_L (++)).
Qed.

Lemma scan_queries_spec entity_type (l : list ProcessedQuery)
    (acc : list Example * list Label) :
  foldl (scan_query entity_type) acc l
  = (acc.1 ++ (labelled entity_type l).*1, acc.2 ++ (labelled entity_type l).*2).
Proof.
  revert acc. induction l as [|q l IH]; intros acc.
  { simpl. rewrite !app_nil_r. by destruct acc. }
  cbn [foldl]. rewrite IH. unfold scan_query. rewrite scan_entities_spec.
  unfold labelled. rewrite bind_cons, !fmap_app. cbn [fst snd].
  by rewrite <-!(assoc_L (++)).
Qed.

(** Every collected label is the role of an eligible entity of a scanned
    query. *)
Lemma labelled_elem entity_type (l : list ProcessedQuery) (x : Example) (lb : Label) :
  (x, lb) ∈ labelled entity_type l →
  ∃ q idx e, q ∈ l ∧ entities q !! idx = Some e
             ∧ eligible entity_type e = true
             ∧ x = (query q, entities q, idx) ∧ lb = role (entity e).
Proof.
  unfold labelled. intros (q & Hx & Hq)%list_elem_of_bind.
  apply list_elem_of_omap in Hx as ([idx e] & Hie & Hkeep).
  unfold enumerate in Hie. apply elem_of_lookup_imap in Hie as (i & e' & Heq & Hi).
  simplify_eq. simpl in Hkeep.
  destruct (eligible entity_type e') eqn:He; simplify_eq.
  by exists q, i, e'.
Qed.

Lemma labelled_no_None entity_type (l : list ProcessedQuery) :
  None ∉ (labelled entity_type l).*2.
Proof.
  intros ([x lb] & Hlb & Hin)%list_elem_of_fmap. simpl in Hlb. subst lb.
  apply labelled_elem in Hin as (q & idx & e & _ & _ & He & _ & Hr).
  unfold eligible in He. rewrite <-Hr in He.
  by apply andb_true_iff in He as [_ ?].
Qed.

(** [_get_queries_and_labels] always returns: the label list it builds
    holds no [None], so the branch that logs and raises is never taken.
    It changes nothing and traces nothing. *)
Lemma get_queries_and_labels_returns queries label_set w :
  _get_queries_and_labels queries label_set w
  = (Returned (training_data (this w) queries label_set), w).
Proof.
  unfold _get_queries_and_labels, training_data, training_queries. run.
  rewrite scan_queries_spec. simpl.
  case_decide; [done|].
  rewrite decide_False; [done|].
  rewrite elem_of_list_to_set. apply labelled_no_None.
Qed.

(** **** The fit path *)

Lemma add_roles_spec (labels : list Label) w :
  for_each labels (λ label, assign (λ s, set_roles (roles s ∪ {[label]}) s)) w
  = (Returned (),
     World (set_roles (roles (this w) ∪ list_to_set labels) (this w))
       (disk w) (trace w)).
Proof.
  revert w. induction labels as [|label labels IH]; intros [s d tr].
  { simpl. rewrite (right_id_L ∅ (∪)). by destruct s. }
  cbn [for_each]. run. rewrite IH. simpl. do 2 f_equal.
  unfold set_roles. simpl. f_equal.
  by rewrite (assoc_L (∪)).
Qed.

(** Lines 91-107 always run to the end. Without examples nothing but the
    fingerprint and the two flags is assigned; with examples the model is
    fitted once, on exactly those examples. *)
Lemma fit_from_data_spec (model : Model) new_hash queries label_set w :
  fit_from_data model new_hash queries label_set w =
  (Returned (),
   let el := training_data (this w) queries label_set in
   match el.1 with
   | [] =>
       World (set_dirty true (set_ready true (set_hash (Some new_hash) (this w))))
         (disk w) (trace w)
   | _ :: _ =>
       let m := model_fit (initialize_resources model queries el.2) el.1 el.2 in
       World (mk (domain (this w)) (intent (this w)) (entity_type (this w))
                (list_to_set el.2) (Some m)
                (Some (from_model_config (model_config m)))
                (Some new_hash) true true)
         (disk w) (trace w ++ [ModelFit el.1 el.2])
   end).
Proof.
  unfold fit_from_data.
  unfold mbind at 1. unfold M_bind at 1. rewrite get_queries_and_labels_returns.
  destruct (training_data (this w) queries label_set) as [examples labels].
  destruct examples as [|example examples]; [by run|].
  cbn [fst snd]. unfold mbind, M_bind.
  unfold assign at 1. cbv beta iota.
  rewrite add_roles_spec. run. by rewrite (left_id_L ∅ (∪)).
Qed.


(** Without a usable previous model, [fit] is its entry log line followed
    by lines 91-107. *)
Lemma fit_no_reuse w queries label_set previous_model_path kwargs :
  let model_config := _get_model_config (this w) kwargs in
  let new_hash := _get_model_hash (this w) model_config queries label_set in
  (∀ p, previous_model_path = Some p → p ≠ "" →
        _load_hash (disk w) p ≠ Some new_hash) →
  fit queries label_set previous_model_path kwargs w =
    fit_from_data (create_model model_config) new_hash queries label_set
      (World (this w) (disk w) (trace w ++ [fitting (this w)])).
Proof.
  intros model_config new_hash Hgate. unfold fit. run.
  destruct previous_model_path as [p|]; [|done].
  destruct (String.eqb_spec p "") as [->|Hp]; simpl; [done|].
  destruct (decide (_load_hash _ _ = _)) as [Hold|Hold]; [|done].
  by apply Hgate in Hold.
Qed.




(** **** The reuse gate *)


(** **** The single-label short-circuit *)

Lemma single_label_no_examples (s : t) queries label_set (r : string) :
  (∀ q e, q ∈ training_queries s queries label_set → e ∈ entities q →
          eligible (entity_type s) e = true → role (entity e) = Some r) →
  training_data s queries label_set = ([], []).
Proof.
  intros Hone. unfold training_data.
  set (el := labelled (entity_type s) (training_queries s queries label_set)).
  assert (∀ lb, lb ∈ el.*2 → lb = Some r) as Hall.
  { intros lb ([x lb'] & -> & Hin)%list_elem_of_fmap. simpl.
    apply labelled_elem in Hin as (q & idx & e & Hq & He & Hel & _ & ->).
    apply (Hone q e); [done| |done]. by eapply list_elem_of_lookup_2. }
  cbv zeta. destruct (decide _) as [|Hsize]; [done|].
  destruct el as [|[x lb] el'] eqn:Hel; [done|]. exfalso. apply Hsize.
  assert (list_to_set ((x, lb) :: el').*2 =@{gset Label} {[ Some r ]}) as ->.
  { apply set_eq. intros lb'. rewrite elem_of_list_to_set, elem_of_singleton.
    split; [apply Hall|]. intros ->. rewrite <-(Hall lb); [by left|by left]. }
  apply size_singleton.
Qed.

(** What [fit] does on single-label training data when it does not
    reuse a previous model. *)
Lemma fit_single_label_run w queries label_set previous_model_path kwargs (r : string) :
  let model_config := _get_model_config (this w) kwargs in
  let new_hash := _get_model_hash (this w) model_config queries label_set in
  (∀ p, previous_model_path = Some p → p ≠ "" →
        _load_hash (disk w) p ≠ Some new_hash) →
  (∀ q e, q ∈ training_queries (this w) queries label_set → e ∈ entities q →
          eligible (entity_type (this w)) e = true → role (entity e) = Some r) →
  fit queries label_set previous_model_path kwargs w =
    (Returned (),
     World (set_dirty true (set_ready true (set_hash (Some new_hash) (this w))))
       (disk w) (trace w ++ [fitting (this w)])).
Proof.
  intros model_config new_hash Hgate Hone.
  rewrite fit_no_reuse by done. rewrite fit_from_data_spec. cbn [this disk trace].
  by rewrite (single_label_no_examples _ _ _ _ Hone).
Qed.


(** **** Predicting without a model *)

Lemma predict_unset w query entities entity_index :
  _model (this w) = None →
  predict query entities entity_index w =
    (Returned None,
     World (this w) (disk w)
       (trace w ++ [Log ERROR "You must fit or load the model before running predict" []])).
Proof. intros Hm. unfold predict. run. by rewrite Hm. Qed.

(** C10. Whenever the internal model is unset, [predict] logs an error
    and returns [None] without raising. This is so in particular after a
    [fit] that took the single-label short-circuit on a classifier
    without a model: the classifier is then ready, and [predict] on it
    still returns [None]. *)
Theorem predict_without_model w query (ents : list QueryEntity) entity_index :
  _model (this w) = None →
  predict query ents entity_index w =
    (Returned None,
     World (this w) (disk w)
       (trace w ++ [Log ERROR "You must fit or load the model before running predict" []]))
  ∧ ∀ queries label_set previous_model_path kwargs (r : string),
      (∀ p, previous_model_path = Some p → p ≠ "" →
            _load_hash (disk w) p ≠
              Some (_get_model_hash (this w) (_get_model_config (this w) kwargs)
                      queries label_set)) →
      (∀ q e, q ∈ training_queries (this w) queries label_set → e ∈ entities q →
              eligible (entity_type (this w)) e = true → role (entity e) = Some r) →
      ∃ w', fit queries label_set previous_model_path kwargs w = (Returned (), w')
        ∧ ready (this w') = true
        ∧ predict query ents entity_index w' =
            (Returned None,
             World (this w') (disk w')
               (trace w' ++ [Log ERROR "You must fit or load the model before running predict" []])).
Proof.
  intros Hm. split; [by apply predict_unset|].
  intros queries label_set previous_model_path kwargs r Hgate Hone.
  eexists. split; [by apply (fit_single_label_run _ _ _ _ _ r)|].
  split; [done|]. by apply predict_unset.
Qed.

(** **** The fingerprint *)

Lemma sort_permutation (l1 l2 : list string) :
  l1 ≡ₚ l2 → merge_sort String.le l1 = merge_sort String.le l2.
Proof.
  intros Hperm. apply (Sorted_unique String.le).
  - apply Sorted_merge_sort, _.
  - apply Sorted_merge_sort, _.
  - by rewrite !merge_sort_Permutation.
Qed.

(** C6. For every configuration, two query groupings whose flattened
    raw queries are the same up to order get the same training
    fingerprint: the raw queries are flattened and sorted before they are
    hashed. *)
Theorem fingerprint_order_independent (s : t) (model_config : ModelConfig)
    queries1 label_set1 queries2 label_set2 :
  flatten_query_tree (_get_query_tree s queries1 label_set1 true)
    ≡ₚ flatten_query_tree (_get_query_tree s queries2 label_set2 true) →
  _get_queries_and_labels_hash s queries1 label_set1
    = _get_queries_and_labels_hash s queries2 label_set2
  ∧ _get_model_hash s model_config queries1 label_set1
    = _get_model_hash s model_config queries2 label_set2.
Proof.
  intros Hperm.
  assert (_get_queries_and_labels_hash s queries1 label_set1
          = _get_queries_and_labels_hash s queries2 label_set2) as Hq.
  { unfold _get_queries_and_labels_hash. f_equal. by apply sort_permutation. }
  split; [done|]. unfold _get_model_hash. by rewrite Hq.
Qed.

End facts.

(** *** The theorems at a concrete classifier *)

Import Examples.


(** C2 at a concrete training set: one city without a role next to two
    cities with distinct roles. [fit] returns normally; nothing is logged
    as an error; the unannotated example is left out and the model is
    fitted on the two others. *)
Theorem fit_trains_past_unannotated_entity :
  let run := fit (Some unannotated_queries) "train" None ∅ fresh_world in
  run.1 = Returned ()
  ∧ trace run.2 =
      [fitting (this fresh_world);
       ModelFit
         [({| text := "fly from rome" |}, [city (Some "origin")], 0);
          ({| text := "fly to oslo" |}, [city (Some "destination")], 0)]
         [Some "origin"; Some "destination"]]
  ∧ _model (this run.2)
    = Some ({[ "example_type" := "entity"; "label_type" := "class";
               "model_type" := "maxent" ]},
            [Some "origin"; Some "destination"])
  ∧ ready (this run.2) = true.
Proof. by vm_compute. Qed.


Lemma predict_without_model_witness :
  _model (this fresh_world) = None
  ∧ (predict (inl "fly to rome") [city None] 0 fresh_world).1 = Returned None.
Proof.
  split; [done|].
  destruct (predict_without_model fresh_world (inl "fly to rome") [city None] 0)
    as [Hrun _]; [done|].
  by rewrite Hrun.
Defined.

Lemma fingerprint_order_independent_witness :
  flatten_query_tree
    (_get_query_tree (this fresh_world)
       (Some [processed "fly to oslo" []; processed "fly from rome" []]) "train" true)
  ≡ₚ flatten_query_tree
       (_get_query_tree (this fresh_world)
          (Some [processed "fly from rome" []; processed "fly to oslo" []]) "train" true)
  ∧ _get_model_hash (this fresh_world) {[ "model_type" := "maxent" ]}
      (Some [processed "fly to oslo" []; processed "fly from rome" []]) "train"
    = _get_model_hash (this fresh_world) {[ "model_type" := "maxent" ]}
        (Some [processed "fly from rome" []; processed "fly to oslo" []]) "train".
Proof.
  assert (flatten_query_tree
            (_get_query_tree (this fresh_world)
               (Some [processed "fly to oslo" []; processed "fly from rome" []])
               "train" true)
          ≡ₚ flatten_query_tree
               (_get_query_tree (this fresh_world)
                  (Some [processed "fly from rome" []; processed "fly to oslo" []])
                  "train" true)) as Hperm.
  { apply Permutation_swap. }
  split; [done|].
  by destruct (fingerprint_order_independent (this fresh_world)
                 {[ "model_type" := "maxent" ]} _ _ _ _ Hperm).
Defined.

End RoleClassifierFacts.
